(** * GaBOflow: geometry utilities and the SPD Ackley benchmark

    A shallow embedding of

    - [BoManifolds/Riemannian_utils/geometry_utils.py]
      ([vector_to_skew_matrix], [rotation_matrix_from_axis_angle]);
    - [examples/bo_spd/benchmark_examples/bo_spd_ackley_manifold.py]
      ([dim_vec], [test_function], [true_opt_val], the loop that fills
      [y_best]).

    Modelling conventions.  numpy's float64 scalars are read as real numbers
    ([R] of the Standard Library) and [np.sin], [np.cos], [np.exp],
    [np.sqrt], [np.pi] as [sin], [cos], [exp], [sqrt], [PI]: every statement
    below is a statement of exact arithmetic, rounding is not modelled.
    An ndarray of shape (3,) is a [vec3], an ndarray of shape (3,3) is a
    [mat3] stored by rows, as [np.array([[..],[..],[..]])] builds it. *)

From Stdlib Require Import Reals Lra List ZArith Lia.
From Stdlib Require Import QArith Finite.
Import ListNotations.

(* ================================================================= *)
(** ** numpy arrays of shape (3,) and (3,3) *)

Module Np.

Local Open Scope R_scope.

Record vec3 : Type := V3 { c0 : R; c1 : R; c2 : R }.
Record mat3 : Type := M3 { r0 : vec3; r1 : vec3; r2 : vec3 }.

(** The three valid indices of an axis of length 3. *)
Inductive ix : Type := X0 | X1 | X2.

(** [q[i]] *)
Definition vget (q : vec3) (i : ix) : R :=
  match i with X0 => c0 q | X1 => c1 q | X2 => c2 q end.

(** [m[i]], a row *)
Definition row (m : mat3) (i : ix) : vec3 :=
  match i with X0 => r0 m | X1 => r1 m | X2 => r2 m end.

(** [m[i, j]] *)
Definition mget (m : mat3) (i j : ix) : R := vget (row m i) j.

(** [m[:, j]], a column *)
Definition col (m : mat3) (j : ix) : vec3 :=
  V3 (mget m X0 j) (mget m X1 j) (mget m X2 j).

Definition vec_of_fun (f : ix -> R) : vec3 := V3 (f X0) (f X1) (f X2).
Definition mat_of_fun (f : ix -> ix -> R) : mat3 :=
  M3 (vec_of_fun (f X0)) (vec_of_fun (f X1)) (vec_of_fun (f X2)).

(** Elementwise operations, as numpy broadcasts them. *)
Definition vmap (f : R -> R) (u : vec3) : vec3 :=
  V3 (f (c0 u)) (f (c1 u)) (f (c2 u)).
Definition vmap2 (f : R -> R -> R) (u v : vec3) : vec3 :=
  V3 (f (c0 u) (c0 v)) (f (c1 u) (c1 v)) (f (c2 u) (c2 v)).
Definition mmap (f : R -> R) (m : mat3) : mat3 :=
  M3 (vmap f (r0 m)) (vmap f (r1 m)) (vmap f (r2 m)).
Definition mmap2 (f : R -> R -> R) (m n : mat3) : mat3 :=
  M3 (vmap2 f (r0 m) (r0 n)) (vmap2 f (r1 m) (r1 n)) (vmap2 f (r2 m) (r2 n)).

(** [np.eye(3)] *)
Definition eye3 : mat3 := M3 (V3 1 0 0) (V3 0 1 0) (V3 0 0 1).

(** [m + n] on two (3,3) arrays *)
Definition madd : mat3 -> mat3 -> mat3 := mmap2 Rplus.
(** [s * m], a scalar broadcast over a (3,3) array *)
Definition mscal (s : R) : mat3 -> mat3 := mmap (Rmult s).
(** [-m] *)
Definition mneg : mat3 -> mat3 := mmap Ropp.
(** [-v] *)
Definition vneg : vec3 -> vec3 := vmap Ropp.
(** [v / s] *)
Definition vdiv (v : vec3) (s : R) : vec3 := vmap (fun x => x / s) v.

(** [u.dot(v)] on two (3,) arrays: the sum of the products. *)
Definition vdot (u v : vec3) : R := c0 u * c0 v + c1 u * c1 v + c2 u * c2 v.

(** [m.dot(v)]: a (3,3) array applied to a (3,) array. *)
Definition mdotv (m : mat3) (v : vec3) : vec3 :=
  V3 (vdot (r0 m) v) (vdot (r1 m) v) (vdot (r2 m) v).

(** [m.dot(n)]: the matrix product of two (3,3) arrays. *)
Definition mdot (m n : mat3) : mat3 :=
  let line (r : vec3) := V3 (vdot r (col n X0)) (vdot r (col n X1)) (vdot r (col n X2)) in
  M3 (line (r0 m)) (line (r1 m)) (line (r2 m)).

(** [m.T] *)
Definition transpose (m : mat3) : mat3 := M3 (col m X0) (col m X1) (col m X2).

(** [np.linalg.norm(v)] *)
Definition norm (v : vec3) : R := sqrt (vdot v v).

(** [np.cross(u, v)] *)
Definition cross (u v : vec3) : vec3 :=
  V3 (c1 u * c2 v - c2 u * c1 v)
     (c2 u * c0 v - c0 u * c2 v)
     (c0 u * c1 v - c1 u * c0 v).

End Np.

(* ================================================================= *)
(** ** geometry_utils.py *)

Module Geometry.

Import Np.
Local Open Scope R_scope.

(** [np.array([[0, -q[2], q[1]], [q[2], 0, -q[0]], [-q[1], q[0], 0]])] *)
Definition vector_to_skew_matrix (q : vec3) : mat3 :=
  M3 (V3 0 (- vget q X2) (vget q X1))
     (V3 (vget q X2) 0 (- vget q X0))
     (V3 (- vget q X1) (vget q X0) 0).

(** [utilde = vector_to_skew_matrix(ax)]
    [np.eye(3) + np.sin(angle)*utilde + (1 - np.cos(angle))*utilde.dot(utilde)] *)
Definition rotation_matrix_from_axis_angle (ax : vec3) (angle : R) : mat3 :=
  let utilde := vector_to_skew_matrix ax in
  madd (madd eye3 (mscal (sin angle) utilde))
       (mscal (1 - cos angle) (mdot utilde utilde)).

(** The formula of the specification, written entry by entry:
    [R_ij = I_ij + sin(theta) K_ij + (1 - cos(theta)) (K^2)_ij], with
    [(K^2)_ij = sum_k K_ik K_kj]. *)
Definition kronecker (i j : ix) : R :=
  match i, j with
  | X0, X0 | X1, X1 | X2, X2 => 1
  | _, _ => 0
  end.

Definition square_entry (K : mat3) (i j : ix) : R :=
  mget K i X0 * mget K X0 j + mget K i X1 * mget K X1 j + mget K i X2 * mget K X2 j.

Definition rodrigues_formula (K : mat3) (theta : R) : mat3 :=
  mat_of_fun (fun i j =>
    kronecker i j + sin theta * mget K i j + (1 - cos theta) * square_entry K i j).

(** [ax / np.linalg.norm(ax)]: the renormalisation the function does not do. *)
Definition normalized (ax : vec3) : vec3 := vdiv ax (norm ax).

End Geometry.

(* ================================================================= *)
(** ** bo_spd_ackley_manifold.py *)

Module AckleyExample.

(** *** The dimension of the Mandel vector *)

(** [int(x)] on the exact value [x] of a Python float: truncation towards
    zero. *)
Definition py_int (x : Q) : Z := Z.quot (Qnum x) (Z.pos (Qden x)).

(** [dim_vec = int(dim + dim * (dim - 1) / 2)]; [/] is Python 3's true
    division. *)
Definition dim_vec (dim : Z) : Z :=
  py_int (inject_Z dim + inject_Z (dim * (dim - 1)) / inject_Z 2)%Q.

(** The entries [(i, j)] with [i <= j < n]: those that determine a symmetric
    n x n matrix, one coordinate of the space of symmetric matrices each. *)
Definition upper_entries (n : nat) : list (nat * nat) :=
  flat_map (fun i => map (pair i) (seq i (n - i))) (seq 0 n).

(** *** The objective *)

Local Open Scope R_scope.

(** ndarrays of one and two axes. *)
Definition array1 : Type := list R.
Definition array2 : Type := list (list R).

(** A failed index is Python's [IndexError]. *)
Definition bind {A B : Type} (m : option A) (k : A -> option B) : option B :=
  match m with Some a => k a | None => None end.
Notation "x <- m ;; k" := (bind m (fun x => k))
  (at level 61, m at next level, right associativity).

(** [a[i]] and [a[i, j]] *)
Definition at1 {A : Type} (a : list A) (i : nat) : option A := nth_error a i.
Definition at2 (a : array2) (i j : nat) : option R := r <- at1 a i ;; at1 r j.

(** [base = np.array([[2.5, -0.7], [-0.7, 2.3]])] *)
Definition base : array2 := [[2.5; - 0.7]; [- 0.7; 2.3]].

Section Objective.

(** [SPD_utils.vector_to_symmetric_matrix_mandel],
    [SPD_utils.symmetric_matrix_to_vector_mandel] and pymanopt's
    [PositiveDefinite(dim).log] are imported by the example: they are taken
    as parameters. *)
Variable vector_to_symmetric_matrix_mandel : array1 -> array2.
Variable symmetric_matrix_to_vector_mandel : array2 -> array1.
Variable spd_manifold_log : array2 -> array2 -> array2.

(** [def test_function(x)]: [x] has shape (1, dim_vec); the three entries
    [x_proj[0, 0]], [x_proj[1, 1]], [x_proj[1, 0]] are read, the Ackley
    expression is evaluated with [a = 20], [b = 0.2], [c = 2 * np.pi], and
    the result [y[None, None]] has shape (1, 1). *)
Definition test_function (x : array2) : option array2 :=
  x0 <- at1 x 0 ;;
  let x := vector_to_symmetric_matrix_mandel x0 in
  let x_proj := spd_manifold_log base x in
  p00 <- at2 x_proj 0 0 ;;
  p11 <- at2 x_proj 1 1 ;;
  p10 <- at2 x_proj 1 0 ;;
  let a := 20 in
  let b := 0.2 in
  let c := 2 * PI in
  let y := (- a) * exp ((- b) * sqrt ((p00 ^ 2 + p11 ^ 2 + p10 ^ 2) / 3))
           - exp ((cos (c * p00) + cos (c * p11) + cos (c * p10)) / 3)
           + a + exp 1 in
  Some [[y]].



End Objective.

(** Modelled from the spec: [SPD_utils.symmetric_matrix_to_vector_mandel] is
    not among the sources; for a 2 x 2 matrix the encoding lists the diagonal
    and then the off-diagonal term scaled by the square root of 2. *)
Definition mandel_of_matrix2 (m : array2) : array1 :=
  match m with
  | [[m00; m01]; [_; m11]] => [m00; m11; sqrt 2 * m01]
  | _ => []
  end.

(** Modelled from the spec: [SPD_utils.vector_to_symmetric_matrix_mandel] is
    not among the sources; the inverse of the encoding above. *)
Definition matrix2_of_mandel (v : array1) : array2 :=
  match v with
  | [v0; v1; v2] => [[v0; v2 / sqrt 2]; [v2 / sqrt 2; v1]]
  | _ => []
  end.

(** The first-order term of a logarithm map at [b], [x - b]: an instance of
    the [log] parameter that vanishes at the base point. *)
Definition log_linearised (b x : array2) : array2 :=
  map (fun rows => map (fun e => snd e - fst e) (combine (fst rows) (snd rows)))
      (combine b x).

End AckleyExample.

(* ================================================================= *)
(** ** Further array operations, used to state properties of the rotation *)

Module NpExt.

Import Np.
Local Open Scope R_scope.

(** [u + v] and [s * v] on (3,) arrays *)
Definition vadd : vec3 -> vec3 -> vec3 := vmap2 Rplus.
Definition vscal (s : R) : vec3 -> vec3 := vmap (Rmult s).

(** [m - n] on (3,3) arrays *)
Definition msub : mat3 -> mat3 -> mat3 := mmap2 Rminus.

(** [np.zeros(3)] and [np.zeros((3, 3))] *)
Definition vzero : vec3 := V3 0 0 0.
Definition mzero : mat3 := M3 vzero vzero vzero.

(** [np.trace(m)] *)
Definition trace (m : mat3) : R := mget m X0 X0 + mget m X1 X1 + mget m X2 X2.

(** [np.linalg.det(m)], by expansion along the first row. *)
Definition det (m : mat3) : R :=
  mget m X0 X0 * (mget m X1 X1 * mget m X2 X2 - mget m X1 X2 * mget m X2 X1)
  - mget m X0 X1 * (mget m X1 X0 * mget m X2 X2 - mget m X1 X2 * mget m X2 X0)
  + mget m X0 X2 * (mget m X1 X0 * mget m X2 X1 - mget m X1 X1 * mget m X2 X0).

End NpExt.

(* ================================================================= *)
(** ** geometry_utils.py on arrays of any length

    [vector_to_skew_matrix] reads [q[0]], [q[1]] and [q[2]] and nothing else
    of [q]: on a one-axis array of any length the three reads either succeed
    or raise [IndexError]. *)

Module GeometrySeq.

Import Np Geometry AckleyExample.
Local Open Scope R_scope.

(** [vector_to_skew_matrix(q)] for [q] of any length; [None] is
    [IndexError]. *)
Definition vector_to_skew_matrix_seq (q : array1) : option mat3 :=
  q0 <- at1 q 0 ;;
  q1 <- at1 q 1 ;;
  q2 <- at1 q 2 ;;
  Some (M3 (V3 0 (- q2) q1) (V3 q2 0 (- q0)) (V3 (- q1) q0 0)).

(** [rotation_matrix_from_axis_angle(ax, angle)] for [ax] of any length. *)
Definition rotation_matrix_from_axis_angle_seq (ax : array1) (angle : R)
  : option mat3 :=
  utilde <- vector_to_skew_matrix_seq ax ;;
  Some (madd (madd eye3 (mscal (sin angle) utilde))
             (mscal (1 - cos angle) (mdot utilde utilde))).

End GeometrySeq.

(* ================================================================= *)
(** ** bo_spd_ackley_manifold.py: the value of the objective *)

Module AckleyValue.

Local Open Scope R_scope.

(** The Ackley expression that [test_function] evaluates on the three
    entries it reads, with [a = 20], [b = 0.2], [c = 2 * np.pi] substituted;
    [AckleyExtra.test_function_unfold] relates it to [test_function]. *)
Definition ackley_value (p00 p11 p10 : R) : R :=
  - (20) * exp ((- (0.2)) * sqrt ((p00 ^ 2 + p11 ^ 2 + p10 ^ 2) / 3))
  - exp ((cos (2 * PI * p00) + cos (2 * PI * p11) + cos (2 * PI * p10)) / 3)
  + 20 + exp 1.

End AckleyValue.

(* ================================================================= *)
(** ** bo_spd_ackley_manifold.py: the best value at each iteration *)

Module Convergence.

Import AckleyExample.
Local Open Scope R_scope.

(** [a.min()] on an array of two axes: the least of all its entries;
    [None] is numpy's [ValueError] on an array without entries. *)
Definition amin (a : array2) : option R :=
  match concat a with
  | [] => None
  | v :: t => Some (fold_left Rmin t v)
  end.

(** [a[i] = v]; [None] is [IndexError]. *)
Definition set_item (a : array1) (i : nat) (v : R) : option array1 :=
  if (i <? length a)%nat then Some (firstn i a ++ v :: skipn (S i) a) else None.

(** One turn of the loop: [y_best[i] = y_eval[:(i + 1)].min()]. *)
Definition y_best_step (y_eval : array2) (st : option array1) (i : nat)
  : option array1 :=
  y_best <- st ;;
  m <- amin (firstn (i + 1) y_eval) ;;
  set_item y_best i m.

(** [y_best = np.ones(nb_eval)]
    [for i in range(nb_eval): y_best[i] = y_eval[:(i + 1)].min()] *)
Definition y_best_loop (nb_eval : nat) (y_eval : array2) : option array1 :=
  fold_left (y_best_step y_eval) (seq 0 nb_eval) (Some (repeat 1 nb_eval)).

End Convergence.

(* ================================================================= *)
(** ** Lemmas on the array operations *)

Module NpFacts.

Import Np.
Local Open Scope R_scope.

Lemma vec3_eq (a b c a' b' c' : R) :
  a = a' -> b = b' -> c = c' -> V3 a b c = V3 a' b' c'.
Proof. intros -> -> ->; reflexivity. Qed.

Lemma mat3_eq (u v w u' v' w' : vec3) :
  u = u' -> v = v' -> w = w' -> M3 u v w = M3 u' v' w'.
Proof. intros -> -> ->; reflexivity. Qed.

(** Two matrices with the same nine entries are equal. *)
Lemma mat3_ext (m n : mat3) :
  (forall i j, mget m i j = mget n i j) -> m = n.
Proof.
  intros H.
  destruct m as [[a b c] [d e f] [g h k]], n as [[a' b' c'] [d' e' f'] [g' h' k']].
  apply mat3_eq; apply vec3_eq;
    first [ apply (H X0 X0) | apply (H X0 X1) | apply (H X0 X2)
          | apply (H X1 X0) | apply (H X1 X1) | apply (H X1 X2)
          | apply (H X2 X0) | apply (H X2 X1) | apply (H X2 X2) ].
Qed.


End NpFacts.

(** Splits an equation between arrays into its scalar components. *)
Ltac by_entries :=
  repeat first [ apply NpFacts.mat3_eq | apply NpFacts.vec3_eq ].

(* ================================================================= *)
(** ** Properties of geometry_utils.py *)

Module GeometryProps.

Import Np Geometry.
Local Open Scope R_scope.

(** The skew matrix applied to a vector is the cross product. *)
Lemma skew_mdotv (q v : vec3) :
  mdotv (vector_to_skew_matrix q) v = cross q v.
Proof.
  destruct q as [q0 q1 q2], v as [x y z].
  unfold mdotv, cross, vdot; simpl; by_entries; ring.
Qed.

(** The square of the skew matrix, entry by entry. *)
Lemma skew_square (q : vec3) :
  mdot (vector_to_skew_matrix q) (vector_to_skew_matrix q) =
  M3 (V3 (- (c1 q * c1 q + c2 q * c2 q)) (c0 q * c1 q) (c0 q * c2 q))
     (V3 (c0 q * c1 q) (- (c0 q * c0 q + c2 q * c2 q)) (c1 q * c2 q))
     (V3 (c0 q * c2 q) (c1 q * c2 q) (- (c0 q * c0 q + c1 q * c1 q))).
Proof.
  destruct q as [q0 q1 q2].
  unfold mdot, vdot; simpl; by_entries; ring.
Qed.

(** The entries of the returned matrix, in terms of [s = sin(angle)] and
    [k = 1 - cos(angle)]. *)
Lemma rotation_entries (ax : vec3) (angle : R) :
  let s := sin angle in
  let k := 1 - cos angle in
  let '(V3 x y z) := ax in
  rotation_matrix_from_axis_angle ax angle =
  M3 (V3 (1 - k * (y * y + z * z)) (- s * z + k * (x * y)) (s * y + k * (x * z)))
     (V3 (s * z + k * (x * y)) (1 - k * (x * x + z * z)) (- s * x + k * (y * z)))
     (V3 (- s * y + k * (x * z)) (s * x + k * (y * z)) (1 - k * (x * x + y * y))).
Proof.
  destruct ax as [x y z]; cbv zeta.
  unfold rotation_matrix_from_axis_angle; cbv zeta.
  rewrite skew_square.
  unfold madd, mscal, mmap2, mmap, vmap2, vmap, eye3; simpl; by_entries; ring.
Qed.

(** A quarter turn about the third axis sends the first axis to the second. *)
Example quarter_turn_about_z :
  mdotv (rotation_matrix_from_axis_angle (V3 0 0 1) (PI / 2)) (V3 1 0 0) = V3 0 1 0.
Proof.
  pose proof (rotation_entries (V3 0 0 1) (PI / 2)) as H; cbv zeta in H; rewrite H.
  rewrite sin_PI2, cos_PI2; unfold mdotv, vdot; simpl; by_entries; ring.
Qed.

Example skew_matrix_of_1_2_3 :
  vector_to_skew_matrix (V3 1 2 3) =
  M3 (V3 0 (- 3) 2) (V3 3 0 (- 1)) (V3 (- 2) 1 0).
Proof. unfold vector_to_skew_matrix; simpl; by_entries; ring. Qed.

(** The returned matrix has the entries of the formula of the specification
    at the skew matrix of the axis as it is given. *)
Lemma rotation_formula_entries (ax : vec3) (theta : R) :
  rotation_matrix_from_axis_angle ax theta =
  rodrigues_formula (vector_to_skew_matrix ax) theta.
Proof.
  destruct ax as [x y z].
  unfold rotation_matrix_from_axis_angle, rodrigues_formula; cbv zeta.
  unfold mat_of_fun, vec_of_fun, square_entry, kronecker.
  unfold madd, mscal, mmap2, mmap, vmap2, vmap, mdot, vdot, eye3; simpl.
  by_entries; ring.
Qed.

(** C1: for every axis [ax] and angle [theta] the function returns the matrix
    [I + sin(theta) K + (1 - cos(theta)) K^2] with
    [K = vector_to_skew_matrix ax] and [I] the identity: entry [(i, j)] is
    [I_ij + sin(theta) K_ij + (1 - cos(theta)) sum_k K_ik K_kj]. *)
Theorem rotation_is_rodrigues_formula (ax : vec3) (theta : R) :
  let K := vector_to_skew_matrix ax in
  rotation_matrix_from_axis_angle ax theta = rodrigues_formula K theta /\
  forall i j,
    mget (rotation_matrix_from_axis_angle ax theta) i j =
    mget eye3 i j + sin theta * mget K i j
    + (1 - cos theta) * (mget K i X0 * mget K X0 j + mget K i X1 * mget K X1 j
                         + mget K i X2 * mget K X2 j).
Proof.
  cbv zeta; split; [apply rotation_formula_entries |].
  intros i j; rewrite rotation_formula_entries.
  destruct ax as [x y z]; destruct i, j;
    unfold rodrigues_formula, mat_of_fun, vec_of_fun, square_entry, kronecker, mget, eye3;
    simpl; ring.
Qed.

(** At a unit axis, applying [K^2] to a vector orthogonal to the axis negates
    it; the returned matrix at angle pi is [I + 2 K^2]. *)
Lemma rotation_at_PI (ax : vec3) :
  let '(V3 x y z) := ax in
  rotation_matrix_from_axis_angle ax PI =
  M3 (V3 (1 - 2 * (y * y + z * z)) (2 * (x * y)) (2 * (x * z)))
     (V3 (2 * (x * y)) (1 - 2 * (x * x + z * z)) (2 * (y * z)))
     (V3 (2 * (x * z)) (2 * (y * z)) (1 - 2 * (x * x + y * y))).
Proof.
  pose proof (rotation_entries ax PI) as H.
  destruct ax as [x y z]; cbv zeta in H; rewrite H.
  rewrite sin_PI, cos_PI; by_entries; ring.
Qed.




(** C4: the skew matrix of [q] applied to [v] is the cross product of [q]
    and [v], and the skew matrix is skew-symmetric: its transpose is its
    negation. *)
Theorem skew_matrix_is_cross_product :
  (forall q v : vec3, mdotv (vector_to_skew_matrix q) v = cross q v) /\
  (forall q : vec3,
     transpose (vector_to_skew_matrix q) = mneg (vector_to_skew_matrix q)).
Proof.
  split.
  - exact skew_mdotv.
  - intros [q0 q1 q2].
    unfold transpose, mneg, mmap, vmap, col, mget; simpl; by_entries; ring.
Qed.

(** C5: the formula is applied to the axis as given and the axis is not
    renormalised: the returned matrix is the formula at the skew matrix of
    [ax] itself, and at the axis (2, 0, 0), of norm 2, and angle pi it is
    not the matrix returned for the renormalised axis. *)
Theorem rotation_does_not_renormalize :
  (forall ax theta,
     rotation_matrix_from_axis_angle ax theta =
     rodrigues_formula (vector_to_skew_matrix ax) theta) /\
  exists ax theta,
    norm ax <> 1 /\
    rotation_matrix_from_axis_angle ax theta <>
    rotation_matrix_from_axis_angle (normalized ax) theta.
Proof.
  split; [exact rotation_formula_entries |].
  exists (V3 2 0 0), PI.
  assert (Hn : norm (V3 2 0 0) = 2).
  { unfold norm, vdot; simpl.
    replace (2 * 2 + 0 * 0 + 0 * 0) with (2 * 2) by ring.
    apply sqrt_square; lra. }
  split; [rewrite Hn; lra |].
  unfold normalized; rewrite Hn.
  pose proof (rotation_at_PI (V3 2 0 0)) as H1.
  pose proof (rotation_at_PI (vdiv (V3 2 0 0) 2)) as H2.
  unfold vdiv, vmap in H2; simpl in H1, H2.
  unfold vdiv, vmap; simpl.
  rewrite H1, H2; intros E.
  apply (f_equal (fun m => mget m X1 X1)) in E.
  unfold mget in E; simpl in E; lra.
Qed.





End GeometryProps.

(* ================================================================= *)
(** ** Properties of bo_spd_ackley_manifold.py *)

Module AckleyProps.

Import AckleyExample.

(** *** The dimension of the Mandel vector *)

Example dim_vec_1 : dim_vec 1 = 1%Z.
Proof. reflexivity. Qed.

Example dim_vec_3 : dim_vec 3 = 6%Z.
Proof. reflexivity. Qed.

Example upper_entries_2 : upper_entries 2 = [(0, 0); (0, 1); (1, 1)]%nat.
Proof. reflexivity. Qed.

(** [upper_entries n] lists exactly the index pairs on or above the
    diagonal. *)
Lemma upper_entries_spec (n i j : nat) :
  In (i, j) (upper_entries n) <-> (i <= j < n)%nat.
Proof.
  unfold upper_entries; rewrite in_flat_map; split.
  - intros [k [Hk Hin]].
    apply in_seq in Hk; apply in_map_iff in Hin.
    destruct Hin as [l [E Hl]]; apply in_seq in Hl.
    inversion E; subst; lia.
  - intros H; exists i; split.
    + apply in_seq; lia.
    + apply in_map_iff; exists j; split; [reflexivity | apply in_seq; lia].
Qed.

(** Each pair is listed once. *)
Lemma upper_entries_NoDup (n : nat) : NoDup (upper_entries n).
Proof.
  unfold upper_entries.
  assert (G : forall k a, NoDup (flat_map (fun i => map (pair i) (seq i (n - i))) (seq a k)) /\
                          forall p, In p (flat_map (fun i => map (pair i) (seq i (n - i))) (seq a k)) ->
                                    (a <= fst p)%nat).
  { induction k as [| k IH]; intros a; simpl.
    - split; [constructor | intros p []].
    - destruct (IH (S a)) as [ND LB]; split.
      + apply NoDup_app; [| exact ND |].
        * apply Injective_map_NoDup; [| apply seq_NoDup].
          intros u v E; inversion E; reflexivity.
        * intros p Hp Hq. apply LB in Hq.
          apply in_map_iff in Hp; destruct Hp as [l [E _]]; subst p; simpl in Hq; lia.
      + intros p Hp; apply in_app_or in Hp; destruct Hp as [Hp | Hp].
        * apply in_map_iff in Hp; destruct Hp as [l [E _]]; subst p; simpl; lia.
        * apply LB in Hp; lia. }
  apply G.
Qed.




(** *** The objective at the base matrix *)

Local Open Scope R_scope.

(** The Ackley expression at the origin of the tangent space. *)
Lemma ackley_at_origin :
  - (20) * exp ((- (0.2)) * sqrt ((0 ^ 2 + 0 ^ 2 + 0 ^ 2) / 3))
  - exp ((cos (2 * PI * 0) + cos (2 * PI * 0) + cos (2 * PI * 0)) / 3)
  + 20 + exp 1 = 0.
Proof.
  replace ((0 ^ 2 + 0 ^ 2 + 0 ^ 2) / 3) with 0 by field.
  rewrite sqrt_0, !Rmult_0_r, exp_0, cos_0.
  replace ((1 + 1 + 1) / 3) with 1 by field.
  ring.
Qed.


(** The 2 x 2 Mandel encoding is inverted on [base]. *)
Lemma mandel_roundtrip_base : matrix2_of_mandel (mandel_of_matrix2 base) = base.
Proof.
  unfold base, mandel_of_matrix2, matrix2_of_mandel.
  assert (H2 : sqrt 2 <> 0) by (apply Rgt_not_eq, sqrt_lt_R0; lra).
  replace (sqrt 2 * - 0.7 / sqrt 2) with (- 0.7) by (field; exact H2).
  reflexivity.
Qed.

Lemma log_linearised_base : log_linearised base base = [[0; 0]; [0; 0]].
Proof.
  unfold log_linearised, base; simpl.
  repeat (f_equal; try lra).
Qed.


End AckleyProps.

(* ================================================================= *)
(** ** Further properties of geometry_utils.py *)

Module GeometryExtra.

Import Np NpExt Geometry GeometryProps.
Local Open Scope R_scope.

Ltac open_arrays :=
  unfold mdot, mdotv, transpose, madd, msub, mscal, mneg, mmap2, mmap,
         vadd, vscal, vneg, vmap2, vmap, col, mget, vdot, cross, eye3,
         trace, det, mzero, vzero;
  simpl.




(** X2: for any axis, transposing the returned matrix is rotating by the
    opposite angle. *)
Theorem rotation_transpose (ax : vec3) (theta : R) :
  transpose (rotation_matrix_from_axis_angle ax theta) =
  rotation_matrix_from_axis_angle ax (- theta).
Proof.
  pose proof (rotation_entries ax theta) as H1.
  pose proof (rotation_entries ax (- theta)) as H2.
  destruct ax as [x y z]; cbv zeta in H1, H2; rewrite H1, H2.
  rewrite sin_neg, cos_neg; open_arrays; by_entries; ring.
Qed.

(** X3: negating the axis gives the rotation by the opposite angle. *)
Theorem rotation_negated_axis (ax : vec3) (theta : R) :
  rotation_matrix_from_axis_angle (vneg ax) theta =
  rotation_matrix_from_axis_angle ax (- theta).
Proof.
  pose proof (rotation_entries (vneg ax) theta) as H1.
  pose proof (rotation_entries ax (- theta)) as H2.
  destruct ax as [x y z]; unfold vneg, vmap in *; cbn [c0 c1 c2] in *; cbv zeta in H1, H2.
  rewrite H1, H2, sin_neg, cos_neg; by_entries; ring.
Qed.













(** X9: [vector_to_skew_matrix] loses nothing: two vectors with the same
    skew matrix are equal. *)
Theorem vector_to_skew_matrix_injective (p q : vec3) :
  vector_to_skew_matrix p = vector_to_skew_matrix q -> p = q.
Proof.
  destruct p as [p0 p1 p2], q as [q0 q1 q2]; intros E.
  inversion E; subst; reflexivity.
Qed.

Lemma vector_to_skew_matrix_injective_witness :
  vector_to_skew_matrix (V3 1 2 3) = vector_to_skew_matrix (V3 1 2 3) /\
  V3 1 2 3 = V3 1 2 3.
Proof.
  split; [reflexivity |].
  exact (vector_to_skew_matrix_injective (V3 1 2 3) (V3 1 2 3) eq_refl).
Defined.

(** X10: [vector_to_skew_matrix] is linear. *)
Theorem vector_to_skew_matrix_linear (a b : R) (u v : vec3) :
  vector_to_skew_matrix (vadd (vscal a u) (vscal b v)) =
  madd (mscal a (vector_to_skew_matrix u)) (mscal b (vector_to_skew_matrix v)).
Proof.
  destruct u as [u0 u1 u2], v as [v0 v1 v2].
  unfold vector_to_skew_matrix; open_arrays; by_entries; ring.
Qed.

(** X11: the skew matrix of a cross product is the commutator of the skew
    matrices. *)
Theorem skew_matrix_of_cross (u v : vec3) :
  vector_to_skew_matrix (cross u v) =
  msub (mdot (vector_to_skew_matrix u) (vector_to_skew_matrix v))
       (mdot (vector_to_skew_matrix v) (vector_to_skew_matrix u)).
Proof.
  destruct u as [u0 u1 u2], v as [v0 v1 v2].
  unfold vector_to_skew_matrix; open_arrays; by_entries; ring.
Qed.

(** X12: the cube of the skew matrix of [q] is [- |q|^2] times the matrix:
    the powers of [K] beyond the second add nothing to the formula. *)
Theorem skew_matrix_cube (q : vec3) :
  let K := vector_to_skew_matrix q in
  mdot K (mdot K K) = mscal (- vdot q q) K.
Proof.
  cbv zeta; rewrite skew_square.
  destruct q as [x y z].
  unfold vector_to_skew_matrix; open_arrays; by_entries; ring.
Qed.

End GeometryExtra.

(* ================================================================= *)
(** ** geometry_utils.py: the reads of the axis *)

Module GeometrySeqProps.

Import Np Geometry AckleyExample GeometrySeq.
Local Open Scope R_scope.

(** X13: on a one-axis array of any length the rotation matrix is an
    [IndexError] exactly when the array has fewer than three entries, and
    otherwise it is the matrix of the first three entries: the entries after
    the third are never read. *)
Theorem rotation_reads_three_entries (angle : R) :
  (forall ax,
     rotation_matrix_from_axis_angle_seq ax angle = None <-> (length ax < 3)%nat) /\
  (forall x y z rest,
     rotation_matrix_from_axis_angle_seq (x :: y :: z :: rest) angle =
     Some (rotation_matrix_from_axis_angle (V3 x y z) angle)).
Proof.
  split.
  - intros ax; destruct ax as [| x [| y [| z rest]]]; simpl; split; intros H;
      try reflexivity; try lia; try discriminate.
  - intros x y z rest; reflexivity.
Qed.

(** X21: likewise [vector_to_skew_matrix] alone: [IndexError] below three
    entries, the skew matrix of the first three otherwise. *)
Theorem skew_reads_three_entries :
  (forall q, vector_to_skew_matrix_seq q = None <-> (length q < 3)%nat) /\
  (forall x y z rest,
     vector_to_skew_matrix_seq (x :: y :: z :: rest) =
     Some (vector_to_skew_matrix (V3 x y z))).
Proof.
  split.
  - intros q; destruct q as [| x [| y [| z rest]]]; simpl; split; intros H;
      try reflexivity; try lia; try discriminate.
  - intros x y z rest; reflexivity.
Qed.

End GeometrySeqProps.

(* ================================================================= *)
(** ** Further properties of bo_spd_ackley_manifold.py *)

Module AckleyExtra.

Import AckleyExample AckleyValue.

(** *** [dim_vec] *)




(** *** [test_function] *)

Local Open Scope R_scope.

(** What [test_function] returns, in terms of the reads it makes. *)
Lemma test_function_unfold
    (v2m : array1 -> array2) (log : array2 -> array2 -> array2) (x : array2) :
  test_function v2m log x =
  match x with
  | [] => None
  | x0 :: _ =>
      match at2 (log base (v2m x0)) 0 0, at2 (log base (v2m x0)) 1 1,
            at2 (log base (v2m x0)) 1 0 with
      | Some p00, Some p11, Some p10 => Some [[ackley_value p00 p11 p10]]
      | _, _, _ => None
      end
  end.
Proof.
  unfold test_function, ackley_value.
  destruct x as [| x0 rest]; [reflexivity |].
  cbv beta iota zeta delta [at1 bind nth_error].
  destruct (at2 (log base (v2m x0)) 0 0), (at2 (log base (v2m x0)) 1 1),
           (at2 (log base (v2m x0)) 1 0); reflexivity.
Qed.

Lemma radius_nonneg (p q r : R) : 0 <= sqrt ((p ^ 2 + q ^ 2 + r ^ 2) / 3).
Proof. apply sqrt_pos. Qed.

Lemma first_exp_le_1 (p q r : R) :
  0 < exp ((- (0.2)) * sqrt ((p ^ 2 + q ^ 2 + r ^ 2) / 3)) <= 1.
Proof.
  split; [apply exp_pos |].
  pose proof (radius_nonneg p q r) as Hr.
  rewrite <- exp_0.
  destruct (Req_dec (sqrt ((p ^ 2 + q ^ 2 + r ^ 2) / 3)) 0) as [E | E].
  - rewrite E, Rmult_0_r; apply Rle_refl.
  - left; apply exp_increasing; nra.
Qed.

Lemma second_exp_le_e (p q r : R) :
  0 < exp ((cos (2 * PI * p) + cos (2 * PI * q) + cos (2 * PI * r)) / 3) <= exp 1.
Proof.
  split; [apply exp_pos |].
  pose proof (COS_bound (2 * PI * p)) as [_ Hp].
  pose proof (COS_bound (2 * PI * q)) as [_ Hq].
  pose proof (COS_bound (2 * PI * r)) as [_ Hr].
  set (m := (cos (2 * PI * p) + cos (2 * PI * q) + cos (2 * PI * r)) / 3).
  assert (Hm : m <= 1) by (unfold m; lra).
  destruct Hm as [Hm | Hm].
  - left; apply exp_increasing; exact Hm.
  - rewrite Hm; apply Rle_refl.
Qed.

Lemma ackley_value_bounds (p q r : R) : 0 <= ackley_value p q r < 20 + exp 1.
Proof.
  unfold ackley_value.
  pose proof (first_exp_le_1 p q r) as [H1 H2].
  pose proof (second_exp_le_e p q r) as [H3 H4].
  lra.
Qed.

(** X15: whatever the encoding and the logarithm map, a value returned by
    [test_function] is a 1 x 1 array whose entry [y] satisfies
    [0 <= y < 20 + e]: no point evaluates below [true_opt_val = 0]. *)
Theorem test_function_bounds
    (v2m : array1 -> array2) (log : array2 -> array2 -> array2)
    (x r : array2) :
  test_function v2m log x = Some r ->
  exists y, r = [[y]] /\ 0 <= y < 20 + exp 1.
Proof.
  rewrite test_function_unfold.
  destruct x as [| x0 rest]; [discriminate |].
  destruct (at2 (log base (v2m x0)) 0 0) as [p00 |]; [| discriminate].
  destruct (at2 (log base (v2m x0)) 1 1) as [p11 |]; [| discriminate].
  destruct (at2 (log base (v2m x0)) 1 0) as [p10 |]; [| discriminate].
  intros E; inversion E; subst.
  exists (ackley_value p00 p11 p10); split; [reflexivity | apply ackley_value_bounds].
Qed.


Lemma test_function_value_at_base :
  test_function matrix2_of_mandel log_linearised [mandel_of_matrix2 base] = Some [[0]].
Proof.
  rewrite test_function_unfold.
  rewrite AckleyProps.mandel_roundtrip_base, AckleyProps.log_linearised_base.
  cbv beta iota delta [at2 at1 bind nth_error].
  unfold ackley_value; rewrite AckleyProps.ackley_at_origin; reflexivity.
Qed.

Lemma test_function_bounds_witness :
  exists y, [[0]] = [[y]] /\ 0 <= y < 20 + exp 1.
Proof.
  exact (test_function_bounds matrix2_of_mandel log_linearised
           [mandel_of_matrix2 base] [[0]] test_function_value_at_base).
Defined.


(** X17: [test_function] raises [IndexError] exactly when its argument has no
    row or the logarithm map lacks one of the entries [0, 0], [1, 0],
    [1, 1]; rows of the argument after the first are never read. *)
Theorem test_function_reads
    (v2m : array1 -> array2) (log : array2 -> array2 -> array2) (x : array2) :
  (test_function v2m log x <> None <->
   exists x0 rest a r0 b c r1 rows,
     x = x0 :: rest /\
     log base (v2m x0) = (a :: r0) :: (b :: c :: r1) :: rows) /\
  (forall x0 rest,
     test_function v2m log (x0 :: rest) = test_function v2m log [x0]).
Proof.
  split.
  - rewrite test_function_unfold; split.
    + destruct x as [| x0 rest]; [intros H; contradiction H; reflexivity |].
      destruct (log base (v2m x0)) as [| [| a r0] [| [| b [| c r1]] rows]] eqn:EL;
        unfold at2, at1, bind; simpl;
        try (intros H; contradiction H; reflexivity).
      intros _; exists x0, rest, a, r0, b, c, r1, rows; split; [reflexivity | exact EL].
    + intros [x0 [rest [a [r0 [b [c [r1 [rows [-> E]]]]]]]]].
      rewrite E; unfold at2, at1, bind; simpl; discriminate.
  - intros x0 rest; rewrite !test_function_unfold; reflexivity.
Qed.

End AckleyExtra.

(* ================================================================= *)
(** ** bo_spd_ackley_manifold.py: properties of the best value so far *)

Module ConvergenceProps.

Import AckleyExample Convergence.
Local Open Scope R_scope.

Example y_best_loop_3 :
  y_best_loop 3 [[4]; [2]; [3]] = Some [4; Rmin 4 2; Rmin (Rmin 4 2) 3].
Proof. reflexivity. Qed.

(** *** The least entry *)

Lemma fold_min_le_init (t : list R) (v : R) : fold_left Rmin t v <= v.
Proof.
  revert v; induction t as [| a t IH]; intros v; simpl; [apply Rle_refl |].
  apply Rle_trans with (Rmin v a); [apply IH |].
  unfold Rmin; destruct (Rle_dec v a); lra.
Qed.

Lemma fold_min_le (t : list R) (v w : R) :
  In w (v :: t) -> fold_left Rmin t v <= w.
Proof.
  revert v; induction t as [| a t IH]; intros v H; simpl.
  - destruct H as [E | []]; subst; apply Rle_refl.
  - destruct H as [E | [E | H]].
    + subst w; apply Rle_trans with (Rmin v a); [apply fold_min_le_init |].
      unfold Rmin; destruct (Rle_dec v a); lra.
    + subst w; apply Rle_trans with (Rmin v a); [apply fold_min_le_init |].
      unfold Rmin; destruct (Rle_dec v a); lra.
    + apply IH; right; exact H.
Qed.

Lemma fold_min_in (t : list R) (v : R) : In (fold_left Rmin t v) (v :: t).
Proof.
  revert v; induction t as [| a t IH]; intros v; simpl; [left; reflexivity |].
  destruct (IH (Rmin v a)) as [E | H].
  - rewrite <- E; unfold Rmin; destruct (Rle_dec v a); [left | right; left]; reflexivity.
  - right; right; exact H.
Qed.

Lemma amin_spec (a : array2) (v : R) :
  amin a = Some v ->
  In v (concat a) /\ forall w, In w (concat a) -> v <= w.
Proof.
  unfold amin; destruct (concat a) as [| x t]; [discriminate |].
  intros E; injection E as <-; split.
  - apply fold_min_in.
  - intros w; apply fold_min_le.
Qed.

Lemma amin_none (a : array2) : amin a = None <-> concat a = [].
Proof.
  unfold amin; destruct (concat a); split; intros H; try reflexivity; discriminate.
Qed.

(** *** Assignment by index *)

Lemma set_item_spec (a b : array1) (i : nat) (v : R) :
  set_item a i v = Some b ->
  length b = length a /\ nth_error b i = Some v /\
  forall j, j <> i -> nth_error b j = nth_error a j.
Proof.
  unfold set_item; destruct (Nat.ltb_spec i (length a)) as [Hi | Hi]; [| discriminate].
  intros E; injection E as <-.
  change (match a with [] => [] | _ :: l => skipn i l end) with (skipn (S i) a).
  assert (Hf : length (firstn i a) = i) by (rewrite length_firstn; lia).
  split; [| split].
  - rewrite length_app; cbn [length]; rewrite Hf, length_skipn; lia.
  - rewrite nth_error_app2 by lia. rewrite Hf, Nat.sub_diag; reflexivity.
  - intros j Hj; destruct (Nat.lt_ge_cases j i) as [Hlt | Hge].
    + rewrite nth_error_app1 by lia.
      rewrite nth_error_firstn.
      destruct (Nat.ltb_spec j i); [reflexivity | lia].
    + rewrite nth_error_app2 by lia. rewrite Hf.
      replace (j - i)%nat with (S (j - S i)) by lia; cbn [nth_error].
      rewrite nth_error_skipn; f_equal; lia.
Qed.

Lemma set_item_some (a : array1) (i : nat) (v : R) :
  (i < length a)%nat -> exists b, set_item a i v = Some b.
Proof.
  intros Hi; unfold set_item.
  destruct (Nat.ltb_spec i (length a)); [eexists; reflexivity | lia].
Qed.

(** *** Prefixes *)

Lemma in_firstn (A : Type) (n : nat) (l : list A) (x : A) :
  In x (firstn n l) -> In x l.
Proof.
  revert l; induction n as [| n IH]; intros [| a l]; simpl; try tauto.
  intros [E | H]; [left; exact E | right; apply IH; exact H].
Qed.

Lemma prefix_grows (y : array2) (i j : nat) (w : R) :
  (i <= j)%nat ->
  In w (concat (firstn (i + 1) y)) -> In w (concat (firstn (j + 1) y)).
Proof.
  intros Hij H; apply in_concat in H; destruct H as [r [Hr Hw]].
  apply in_concat; exists r; split; [| exact Hw].
  replace (firstn (i + 1) y) with (firstn (i + 1) (firstn (j + 1) y)) in Hr.
  - apply in_firstn in Hr; exact Hr.
  - rewrite firstn_firstn; f_equal; lia.
Qed.

Lemma prefix_nonempty (y : array2) (k : nat) :
  concat (firstn 1 y) <> [] -> concat (firstn (k + 1) y) <> [].
Proof.
  destruct y as [| r rest]; [intros H; contradiction H; reflexivity |].
  rewrite Nat.add_1_r; simpl; rewrite app_nil_r.
  destruct r; [intros H; contradiction H; reflexivity | discriminate].
Qed.

(** *** The loop *)

Lemma fold_step_none (y : array2) (l : list nat) :
  fold_left (y_best_step y) l None = None.
Proof. induction l as [| i l IH]; simpl; [reflexivity | exact IH]. Qed.

(** After [k] turns the first [k] entries are the least values of the
    prefixes and the others are still 1. *)
Lemma y_best_invariant (n : nat) (y : array2) (k : nat) :
  (k <= n)%nat -> concat (firstn 1 y) <> [] ->
  exists l,
    fold_left (y_best_step y) (seq 0 k) (Some (repeat 1 n)) = Some l /\
    length l = n /\
    (forall i, (i < k)%nat -> nth_error l i = amin (firstn (i + 1) y)) /\
    (forall i, (k <= i < n)%nat -> nth_error l i = Some 1).
Proof.
  intros Hk Hy; induction k as [| k IH].
  - exists (repeat 1 n); simpl; split; [reflexivity |].
    split; [apply repeat_length |].
    split; [intros i Hi; lia |].
    intros i Hi; apply nth_error_repeat; lia.
  - destruct (IH ltac:(lia)) as [l [El [Ll [Hlo Hhi]]]].
    rewrite seq_S, fold_left_app, El; simpl.
    destruct (amin (firstn (k + 1) y)) as [m |] eqn:Em.
    2:{ apply amin_none in Em. apply (prefix_nonempty y k) in Hy. contradiction. }
    destruct (set_item_some l k m ltac:(lia)) as [l' El'].
    exists l'.
    destruct (set_item_spec _ _ _ _ El') as [Ll' [Hk' Hother]].
    split; [unfold bind; exact El' |].
    split; [lia |].
    split.
    + intros i Hi; destruct (Nat.eq_dec i k) as [-> | Hne].
      * rewrite Hk', Em; reflexivity.
      * rewrite Hother by exact Hne. apply Hlo; lia.
    + intros i Hi; rewrite Hother by lia. apply Hhi; lia.
Qed.

Lemma y_best_loop_none (n : nat) (y : array2) :
  concat (firstn 1 y) = [] -> y_best_loop (S n) y = None.
Proof.
  intros He; unfold y_best_loop; cbn [seq fold_left].
  replace (y_best_step y (Some (repeat 1 (S n))) 0%nat) with (@None array1).
  - apply fold_step_none.
  - unfold y_best_step, bind.
    apply amin_none in He; change (0 + 1)%nat with 1%nat; rewrite He; reflexivity.
Qed.

(** X18: the loop fails, with numpy's [ValueError] of a minimum over no
    entry, exactly when there is an evaluation to record and the first row of
    [y_eval] is missing or empty. *)
Theorem y_best_loop_fails_iff (nb_eval : nat) (y_eval : array2) :
  y_best_loop nb_eval y_eval = None <->
  (0 < nb_eval)%nat /\ concat (firstn 1 y_eval) = [].
Proof.
  unfold y_best_loop; split.
  - intros H; destruct nb_eval as [| n]; [discriminate |].
    split; [lia |].
    destruct (concat (firstn 1 y_eval)) as [| v t] eqn:E; [reflexivity |].
    destruct (y_best_invariant (S n) y_eval (S n)) as [l [El _]];
      [lia | rewrite E; discriminate |].
    rewrite El in H; discriminate.
  - intros [Hn He]; destruct nb_eval as [| n]; [lia |].
    apply y_best_loop_none; exact He.
Qed.

(** The result of the loop: entry [i] is the least value of the prefix
    [y_eval[:(i + 1)]], which has an entry. *)
Lemma y_best_loop_some (n : nat) (y : array2) (l : array1) :
  y_best_loop n y = Some l ->
  length l = n /\
  forall i, (i < n)%nat ->
    exists v, nth_error l i = Some v /\ amin (firstn (i + 1) y) = Some v.
Proof.
  intros H.
  destruct n as [| n].
  { unfold y_best_loop in H; simpl in H; injection H as <-.
    split; [reflexivity | intros i Hi; lia]. }
  assert (Hy : concat (firstn 1 y) <> []).
  { intros E; rewrite (y_best_loop_none n y E) in H; discriminate. }
  destruct (y_best_invariant (S n) y (S n) ltac:(lia) Hy) as [l' [El [Ll [Hlo _]]]].
  unfold y_best_loop in H; rewrite El in H; injection H as <-.
  split; [exact Ll |].
  intros i Hi.
  destruct (amin (firstn (i + 1) y)) as [v |] eqn:Ev.
  - exists v; split; [rewrite Hlo by exact Hi; exact Ev | reflexivity].
  - apply amin_none in Ev. apply (prefix_nonempty y i) in Hy. contradiction.
Qed.

(** X19: when the loop ends, [y_best] has [nb_eval] entries and entry [i] is
    one of the values of [y_eval[:(i + 1)]] and is at most each of them. *)
Theorem y_best_is_running_minimum (nb_eval : nat) (y_eval : array2) (y_best : array1) :
  y_best_loop nb_eval y_eval = Some y_best ->
  length y_best = nb_eval /\
  forall i, (i < nb_eval)%nat ->
    exists v, nth_error y_best i = Some v /\
              In v (concat (firstn (i + 1) y_eval)) /\
              forall w, In w (concat (firstn (i + 1) y_eval)) -> v <= w.
Proof.
  intros H; destruct (y_best_loop_some _ _ _ H) as [Hlen Hent].
  split; [exact Hlen |].
  intros i Hi; destruct (Hent i Hi) as [v [Ev Em]].
  exists v; split; [exact Ev |].
  apply amin_spec; exact Em.
Qed.

Lemma y_best_is_running_minimum_witness :
  length [4; Rmin 4 2; Rmin (Rmin 4 2) 3] = 3%nat /\
  exists v, nth_error [4; Rmin 4 2; Rmin (Rmin 4 2) 3] 1 = Some v /\
            In v (concat (firstn (1 + 1) [[4]; [2]; [3]])) /\
            forall w, In w (concat (firstn (1 + 1) [[4]; [2]; [3]])) -> v <= w.
Proof.
  split.
  - reflexivity.
  - apply (y_best_is_running_minimum 3 [[4]; [2]; [3]]
             [4; Rmin 4 2; Rmin (Rmin 4 2) 3] eq_refl).
    lia.
Defined.

(** X20: the recorded best values never increase with the iterations. *)
Theorem y_best_nonincreasing (nb_eval : nat) (y_eval : array2) (y_best : array1) :
  y_best_loop nb_eval y_eval = Some y_best ->
  forall i j vi vj,
    (i <= j)%nat ->
    nth_error y_best i = Some vi -> nth_error y_best j = Some vj -> vj <= vi.
Proof.
  intros H i j vi vj Hij Hi Hj.
  destruct (y_best_loop_some _ _ _ H) as [Hlen Hent].
  assert (Hjn : (j < nb_eval)%nat).
  { rewrite <- Hlen; apply nth_error_Some; rewrite Hj; discriminate. }
  destruct (Hent i ltac:(lia)) as [vi' [Ei Mi]].
  destruct (Hent j Hjn) as [vj' [Ej Mj]].
  rewrite Hi in Ei; injection Ei as <-.
  rewrite Hj in Ej; injection Ej as <-.
  apply amin_spec in Mi; destruct Mi as [Ini _].
  apply amin_spec in Mj; destruct Mj as [_ Lej].
  apply Lej, (prefix_grows y_eval i j); [exact Hij | exact Ini].
Qed.

Lemma y_best_nonincreasing_witness : Rmin 4 2 <= 4.
Proof.
  apply (y_best_nonincreasing 3 [[4]; [2]; [3]]
           [4; Rmin 4 2; Rmin (Rmin 4 2) 3] eq_refl 0%nat 1%nat 4 (Rmin 4 2)).
  - lia.
  - reflexivity.
  - reflexivity.
Defined.

End ConvergenceProps.
